(** * The photo restorer's session controller (src/App.tsx)

    A shallow embedding of the [App] component's state and of its four intent
    handlers, [handleFileChange], [handleRestorePhoto], [handleDownload] and
    [handleReset], together with the JavaScript string primitives they use.

    React state is a record with one field per [useState] cell.  A handler
    does not assign to the cells: it calls setters, and React applies the
    queued setter calls of one synchronous stretch of a handler in the order
    they were called.  A handler is therefore embedded as the list of setter
    calls it makes (an [Action] list), and [commit] folds such a list over the
    state.  An [await] splits a handler in two stretches: the part that runs
    in the event, and the part that resumes when the promise settles. *)

From Stdlib Require Import String Ascii List Bool Arith Lia.
Import ListNotations.
Open Scope string_scope.

(** ** JavaScript primitives *)

Module Js.

(** A value that is either a string or [null]/[undefined]. *)
Definition value := option string.

(** [!!v] for such a value: [null], [undefined] and [""] are falsy. *)
Definition truthy (v : value) : bool :=
  match v with
  | Some s => negb (s =? "")
  | None => false
  end.

(** [`${v}`]: interpolation in a template literal. *)
Definition template (v : value) : string :=
  match v with
  | Some s => s
  | None => "undefined"
  end.

(** [v || d] where [d] is a string. *)
Definition or_else (v : value) (d : string) : string :=
  match v with
  | Some s => if s =? "" then d else s
  | None => d
  end.

(** [s.split(sep)] for a one-character separator. *)
Fixpoint split (sep : ascii) (s : string) : list string :=
  match s with
  | EmptyString => [EmptyString]
  | String c rest =>
      if Ascii.eqb c sep then EmptyString :: split sep rest
      else match split sep rest with
           | [] => [String c EmptyString]
           | piece :: pieces => String c piece :: pieces
           end
  end.

(** [l.join(sep)]. *)
Fixpoint join (sep : ascii) (l : list string) : string :=
  match l with
  | [] => EmptyString
  | [piece] => piece
  | piece :: rest => piece ++ String sep (join sep rest)
  end.

(** [l.slice(0, -1)]: all but the last element. *)
Definition slice_0_m1 (l : list string) : list string := removelast l.

(** [l[i]]: [undefined] out of range. *)
Definition at_index (l : list string) (i : nat) : value := nth_error l i.

(** [c] does not occur in [s]. *)
Fixpoint free_of (c : ascii) (s : string) : bool :=
  match s with
  | EmptyString => true
  | String d rest => negb (Ascii.eqb d c) && free_of c rest
  end.

End Js.

(** ** The session state *)

(** One field for each [useState] cell of [App]. *)
Record State := mkState {
  originalImage : Js.value;
  originalMimeType : Js.value;
  restoredImage : Js.value;
  isLoading : bool;
  error : Js.value;
  fileName : Js.value
}.

(** The initial values passed to [useState]. *)
Definition initial : State :=
  {| originalImage := None; originalMimeType := None; restoredImage := None;
     isLoading := false; error := None; fileName := None |}.

(** A call of one of the six setters. *)
Inductive Action :=
| setOriginalImage (v : Js.value)
| setOriginalMimeType (v : Js.value)
| setRestoredImage (v : Js.value)
| setIsLoading (b : bool)
| setError (v : Js.value)
| setFileName (v : Js.value).

Definition apply (s : State) (a : Action) : State :=
  match a with
  | setOriginalImage v =>
      mkState v (originalMimeType s) (restoredImage s) (isLoading s) (error s) (fileName s)
  | setOriginalMimeType v =>
      mkState (originalImage s) v (restoredImage s) (isLoading s) (error s) (fileName s)
  | setRestoredImage v =>
      mkState (originalImage s) (originalMimeType s) v (isLoading s) (error s) (fileName s)
  | setIsLoading b =>
      mkState (originalImage s) (originalMimeType s) (restoredImage s) b (error s) (fileName s)
  | setError v =>
      mkState (originalImage s) (originalMimeType s) (restoredImage s) (isLoading s) v (fileName s)
  | setFileName v =>
      mkState (originalImage s) (originalMimeType s) (restoredImage s) (isLoading s) (error s) v
  end.

(** The state after the setter calls [acts], applied in call order. *)
Definition commit (acts : list Action) (s : State) : State :=
  fold_left apply acts s.

(** ** Collaborators *)

(** A thrown or rejected value [e], an object of which the handlers read
    [e.message]; the property may be missing. *)
Record JsError := { message : Js.value }.

(** How an awaited promise settles. *)
Inductive Settled (A : Type) :=
| Fulfilled (v : A)
| Rejected (e : JsError).
Arguments Fulfilled {A} v.
Arguments Rejected {A} e.

(** A browser [File]: its name, its media type, and what a [FileReader]
    delivers for it: [Some result] when [readAsDataURL] fires [onload] with
    [reader.result = result], [None] when it fires [onerror]. *)
Record File := {
  name : string;
  type : string;
  readAsDataURL : option string
}.

(** The part of the [@google/genai] interface that [App] touches.  Requests
    and responses are made of the same content parts; every property of a
    part and of a blob is optional in the SDK ([data?: string]), and [None]
    stands for a property that is absent, which reads [undefined]. *)
Inductive Modality := IMAGE | TEXT.

Record Blob := { data : Js.value; mimeType : Js.value }.
Record Part := { inlineData : option Blob; text : Js.value }.
Record Content := { parts : option (list Part) }.
Record Candidate := { content : option Content }.
Record Response := { candidates : option (list Candidate) }.
Record Config := { responseModalities : list Modality }.
Record Request := { model : string; contents : Content; config : Config }.

(** The anchor element that [handleDownload] creates and clicks. *)
Record Link := { href : string; download : string }.

(** ** Constants and helpers of App.tsx *)

Definition RESTORE_PROMPT : string :=
  "Restore and colorize this photo in ultra high quality 4K resolution. Remove scratches, broken lines, and visual defects. Sharpen facial details, enhance textures, and brighten the image for better clarity. Apply natural and realistic colors, making the photo vivid, clear, and true to life while preserving its authenticity.".

(** [`data:${mimeType};base64,${base64}`], the encoded form of an image. *)
Definition dataURL (mime payload : Js.value) : string :=
  "data:" ++ Js.template mime ++ ";base64," ++ Js.template payload.

(** [fileToBase64]: resolves with [{ base64: result.split(',')[1], mimeType:
    file.type }] on [onload], rejects with the reader's event on [onerror]. *)
Definition fileToBase64 (file : File) : Settled (Js.value * string) :=
  match readAsDataURL file with
  | Some result => Fulfilled (Js.at_index (Js.split "," result) 1, type file)
  | None => Rejected {| message := None |}
  end.

(** ** The handlers *)

(** [handleReset]: six setter calls, in source order. *)
Definition handleReset : list Action :=
  [ setOriginalImage None; setOriginalMimeType None; setRestoredImage None;
    setIsLoading false; setError None; setFileName None ].

(** [handleFileChange], up to its [await]: with a file selected it resets
    and starts reading the file; with none it does nothing. *)
Definition handleFileChange (file : option File) : list Action * option File :=
  match file with
  | Some f => (handleReset, Some f)
  | None => ([], None)
  end.

(** [handleFileChange], from its [await] on: the [try] body when
    [fileToBase64] resolved, the [catch] block when it rejected. *)
Definition handleFileChange_resume (file : File)
    (r : Settled (Js.value * string)) : list Action :=
  match r with
  | Fulfilled (base64, mime) =>
      [ setOriginalImage (Some (dataURL (Some mime) base64));
        setOriginalMimeType (Some mime);
        setFileName (Some (name file)) ]
  | Rejected _ => [ setError (Some "Failed to read the image file.") ]
  end.

(** [response.candidates?.[0]?.content?.parts || []]. *)
Definition response_parts (response : Response) : list Part :=
  match candidates response with
  | Some (c :: _) =>
      match content c with
      | Some ct => match parts ct with Some ps => ps | None => [] end
      | None => []
      end
  | _ => []
  end.

(** The [for] loop over the parts: the setter call it makes, and the final
    value of [foundImage].  It stops ([break]) at the first part that has
    [inlineData]. *)
Fixpoint scan_parts (ps : list Part) : list Action * bool :=
  match ps with
  | [] => ([], false)
  | part :: rest =>
      match inlineData part with
      | Some blob =>
          ([ setRestoredImage (Some (dataURL (mimeType blob) (data blob))) ], true)
      | None => scan_parts rest
      end
  end.

(** [handleRestorePhoto], up to its [await]: the guard, the three setter
    calls, and the request passed to [ai.models.generateContent].
    [API_KEY] is [process.env.API_KEY]. *)
Definition handleRestorePhoto (API_KEY : Js.value) (s : State)
    : list Action * option Request :=
  if negb (Js.truthy (originalImage s))
     || negb (Js.truthy (originalMimeType s))
     || negb (Js.truthy API_KEY)
  then
    ([ setError (Some "Please upload an image and ensure your API key is configured.") ],
     None)
  else
    (* past the guard [originalImage] is a string *)
    let base64Data :=
      Js.at_index (Js.split "," (Js.template (originalImage s))) 1 in
    ([ setIsLoading true; setError None; setRestoredImage None ],
     Some {| model := "gemini-2.5-flash-image-preview";
             contents := {| parts := Some
               [ {| inlineData := Some {| data := base64Data;
                                          mimeType := originalMimeType s |};
                    text := None |};
                 {| inlineData := None; text := Some RESTORE_PROMPT |} ] |};
             config := {| responseModalities := [IMAGE; TEXT] |} |}).

(** What the [try] block of [handleRestorePhoto] does once the call has
    settled: its setter calls, and the value it throws, if any. *)
Definition restore_try (o : Settled Response) : list Action * option JsError :=
  match o with
  | Fulfilled response =>
      let (acts, foundImage) := scan_parts (response_parts response) in
      if foundImage then (acts, None)
      else (acts, Some {| message := Some
        "The AI model did not return an image. It might have refused the request." |})
  | Rejected e => ([], Some e)
  end.

(** [handleRestorePhoto], from its [await] on: [try], [catch], [finally]. *)
Definition handleRestorePhoto_resume (o : Settled Response) : list Action :=
  let (acts, thrown) := restore_try o in
  acts
  ++ match thrown with
     | Some e =>
         [ setError (Some (Js.or_else (message e)
             "An error occurred during the restoration process.")) ]
     | None => []
     end
  ++ [ setIsLoading false ].

(** [handleDownload]: no setter is called; when [restoredImage] is truthy a
    link is created and clicked. *)
Definition download_name (fileName : Js.value) : string :=
  let originalName :=
    Js.or_else
      (option_map (fun n => Js.join "." (Js.slice_0_m1 (Js.split "." n))) fileName)
      "photo" in
  originalName ++ "-restored.png".

Definition handleDownload (s : State) : list Action * option Link :=
  if negb (Js.truthy (restoredImage s)) then ([], None)
  else ([], Some {| href := Js.template (restoredImage s);
                    download := download_name (fileName s) |}).

(** ** The component in its environment *)

(** The committed state, the promises the handlers are suspended on
    ([reading]: calls of [fileToBase64]; [pending]: calls of
    [generateContent]), and the effects so far ([sent]: requests issued to
    the service; [clicked]: download links clicked), oldest first. *)
Record World := {
  state : State;
  reading : list File;
  pending : list Request;
  sent : list Request;
  clicked : list Link
}.

Definition fresh (s : State) : World :=
  {| state := s; reading := []; pending := []; sent := []; clicked := [] |}.

(** What can happen: the four intents of the page, and the settling of a
    promise a handler awaits. *)
Inductive Event :=
| Upload (file : option File)
| FileRead (i : nat)
| RequestRestoration
| ServiceSettles (i : nat) (o : Settled Response)
| Download
| Reset.

Fixpoint drop_nth {A : Type} (i : nat) (l : list A) : list A :=
  match l, i with
  | [], _ => []
  | _ :: rest, O => rest
  | x :: rest, S j => x :: drop_nth j rest
  end.

Definition enqueue {A : Type} (o : option A) (l : list A) : list A :=
  match o with
  | Some x => l ++ [x]
  | None => l
  end.

Definition step (API_KEY : Js.value) (w : World) (e : Event) : World :=
  match e with
  | Upload file =>
      let (acts, started) := handleFileChange file in
      {| state := commit acts (state w);
         reading := enqueue started (reading w);
         pending := pending w; sent := sent w; clicked := clicked w |}
  | FileRead i =>
      match nth_error (reading w) i with
      | Some file =>
          {| state := commit (handleFileChange_resume file (fileToBase64 file)) (state w);
             reading := drop_nth i (reading w);
             pending := pending w; sent := sent w; clicked := clicked w |}
      | None => w
      end
  | RequestRestoration =>
      let (acts, request) := handleRestorePhoto API_KEY (state w) in
      {| state := commit acts (state w);
         reading := reading w;
         pending := enqueue request (pending w);
         sent := enqueue request (sent w);
         clicked := clicked w |}
  | ServiceSettles i o =>
      match nth_error (pending w) i with
      | Some _ =>
          {| state := commit (handleRestorePhoto_resume o) (state w);
             reading := reading w;
             pending := drop_nth i (pending w);
             sent := sent w; clicked := clicked w |}
      | None => w
      end
  | Download =>
      let (acts, link) := handleDownload (state w) in
      {| state := commit acts (state w);
         reading := reading w; pending := pending w; sent := sent w;
         clicked := enqueue link (clicked w) |}
  | Reset =>
      {| state := commit handleReset (state w);
         reading := reading w; pending := pending w; sent := sent w;
         clicked := clicked w |}
  end.

Definition run (API_KEY : Js.value) (evs : list Event) (w : World) : World :=
  fold_left (step API_KEY) evs w.

(** Which intents the rendered page offers.  The file input is rendered
    when [!originalImage] and is [disabled={isLoading}]; the three buttons
    are rendered otherwise, Restore and Reset with [disabled={isLoading}],
    Download with [disabled={!restoredImage || isLoading}].  The settling of
    a promise is not under the page's control. *)
Definition offered (s : State) (e : Event) : bool :=
  match e with
  | Upload _ => negb (Js.truthy (originalImage s)) && negb (isLoading s)
  | RequestRestoration => Js.truthy (originalImage s) && negb (isLoading s)
  | Download =>
      Js.truthy (originalImage s)
      && negb (negb (Js.truthy (restoredImage s)) || isLoading s)
  | Reset => Js.truthy (originalImage s) && negb (isLoading s)
  | FileRead _ | ServiceSettles _ _ => true
  end.

(** [run], restricted to the intents the page offers at each point. *)
Fixpoint run_offered (API_KEY : Js.value) (evs : list Event) (w : World)
    : option World :=
  match evs with
  | [] => Some w
  | e :: rest =>
      if offered (state w) e then run_offered API_KEY rest (step API_KEY w e)
      else None
  end.

(** The five lifecycle states, read off the cells the way the component
    renders them: the uploader when there is no original, the spinner while
    loading, the restored picture, the error banner. *)
Inductive Phase := Empty | Ready | Restoring | Restored | Failed.

Definition phase (s : State) : Phase :=
  if negb (Js.truthy (originalImage s)) then Empty
  else if isLoading s then Restoring
  else if Js.truthy (restoredImage s) then Restored
  else if Js.truthy (error s) then Failed
  else Ready.

(** ** Vocabulary of the statements *)

(** A part without inline image data. *)
Definition no_image (part : Part) : Prop := inlineData part = None.

(** In the sequence of setter calls [acts], a call [a] is followed, later
    on, by a call [b]. *)
Definition called_before (a b : Action) (acts : list Action) : Prop :=
  exists before after, acts = (before ++ a :: after)%list /\ In b after.

(** The bookkeeping that ties [isLoading] to the requests in flight: while
    loading there is an original image and exactly one request is pending,
    otherwise none is; and a restored image comes with an original. *)
Definition consistent (w : World) : Prop :=
  (if isLoading (state w)
   then originalImage (state w) <> None /\ exists r, pending w = [r]
   else pending w = [])
  /\ (restoredImage (state w) <> None -> originalImage (state w) <> None).

(** ** Rendering *)

(** The right-hand column of [ImageDisplay]: the spinner overlay
    ([isLoading && ...]), the restored picture
    ([restoredImage ? <img src={restoredImage}/> : ...]) and, in the other
    branch of that conditional, the placeholder ([!isLoading && ...]). *)
Record RestoredColumn := {
  overlay : bool;
  picture : option string;
  placeholder : bool
}.

Definition ImageDisplay (restored : Js.value) (loading : bool) : RestoredColumn :=
  {| overlay := loading;
     picture := if Js.truthy restored then Some (Js.template restored) else None;
     placeholder := if Js.truthy restored then false else negb loading |}.

(** How many of the three elements of the column are on the page. *)
Definition shown (c : RestoredColumn) : nat :=
  (if overlay c then 1 else 0)
  + (match picture c with Some _ => 1 | None => 0 end)
  + (if placeholder c then 1 else 0).

(** The events that are intents of the user, as opposed to the settling of
    a promise. *)
Definition is_intent (e : Event) : bool :=
  match e with
  | Upload _ | RequestRestoration | Download | Reset => true
  | FileRead _ | ServiceSettles _ _ => false
  end.

(** What every handler keeps, whatever the order of events: the three cells
    of an upload are set together, the image being the data URL of the media
    type; a restored image is the data URL of a blob; and there is no
    restored image while loading. *)
Definition tidy (s : State) : Prop :=
  match originalImage s with
  | None => originalMimeType s = None /\ fileName s = None
  | Some url =>
      exists mime base64 n,
        url = dataURL (Some mime) base64
        /\ originalMimeType s = Some mime /\ fileName s = Some n
  end
  /\ match restoredImage s with
     | None => True
     | Some url => exists blob, url = dataURL (mimeType blob) (data blob)
     end
  /\ (isLoading s = true -> restoredImage s = None).

(** * Properties *)

(** ** Splitting and joining strings *)

Section Strings.

Variable sep : ascii.

Lemma split_not_nil (s : string) : Js.split sep s <> [].
Proof.
  destruct s as [|c rest]; simpl; [discriminate|].
  destruct (Ascii.eqb c sep); [discriminate|].
  destruct (Js.split sep rest); discriminate.
Qed.

Lemma free_of_app (a b : string) :
  Js.free_of sep (a ++ b) = Js.free_of sep a && Js.free_of sep b.
Proof.
  induction a as [|c a IH]; simpl; [reflexivity|].
  rewrite IH. apply andb_assoc.
Qed.

Lemma split_free (s : string) :
  Js.free_of sep s = true -> Js.split sep s = [s].
Proof.
  induction s as [|c s IH]; simpl; intros H; [reflexivity|].
  apply andb_true_iff in H as [Hc Hs].
  apply negb_true_iff in Hc. rewrite Hc, (IH Hs). reflexivity.
Qed.

Lemma split_app (a b : string) :
  Js.free_of sep a = true ->
  Js.split sep (a ++ String sep b) = a :: Js.split sep b.
Proof.
  induction a as [|c a IH]; simpl; intros H.
  - rewrite Ascii.eqb_refl. reflexivity.
  - apply andb_true_iff in H as [Hc Ha].
    apply negb_true_iff in Hc. rewrite Hc, (IH Ha). reflexivity.
Qed.

Lemma split_pieces_free (s : string) :
  Forall (fun piece => Js.free_of sep piece = true) (Js.split sep s).
Proof.
  induction s as [|c s IH]; simpl.
  - repeat constructor.
  - destruct (Ascii.eqb c sep) eqn:Hc.
    + constructor; [reflexivity | exact IH].
    + destruct (Js.split sep s) as [|piece pieces].
      * repeat constructor. simpl. rewrite Hc. reflexivity.
      * inversion IH as [|? ? Hp Hps]; subst.
        constructor; [simpl; rewrite Hc, Hp; reflexivity | exact Hps].
Qed.

Lemma join_split (s : string) : Js.join sep (Js.split sep s) = s.
Proof.
  induction s as [|c s IH]; simpl; [reflexivity|].
  destruct (Ascii.eqb c sep) eqn:Hc.
  - apply Ascii.eqb_eq in Hc. subst c.
    pose proof (split_not_nil s) as Hne.
    destruct (Js.split sep s) as [|piece pieces]; [contradiction|].
    simpl in *. rewrite IH. reflexivity.
  - pose proof (split_not_nil s) as Hne.
    destruct (Js.split sep s) as [|piece pieces]; [contradiction|].
    destruct pieces as [|q pieces]; simpl in *; rewrite <- IH; reflexivity.
Qed.

Lemma split_snoc (stem ext : string) :
  Js.free_of sep ext = true ->
  Js.split sep (stem ++ String sep ext) = (Js.split sep stem ++ [ext])%list.
Proof.
  intros Hext. induction stem as [|c stem IH]; simpl.
  - rewrite Ascii.eqb_refl, (split_free ext Hext). reflexivity.
  - rewrite IH. destruct (Ascii.eqb c sep); [reflexivity|].
    pose proof (split_not_nil stem) as Hne.
    destruct (Js.split sep stem); [contradiction | reflexivity].
Qed.

End Strings.

Lemma or_else_nonempty (s d : string) : s <> "" -> Js.or_else (Some s) d = s.
Proof.
  intros H. simpl. destruct (String.eqb_spec s ""); [contradiction | reflexivity].
Qed.

Lemma truthy_Some (s : string) : s <> "" -> Js.truthy (Some s) = true.
Proof.
  intros H. simpl. destruct (String.eqb_spec s ""); [contradiction | reflexivity].
Qed.


(** ** Download *)

Lemma download_name_stem_ext (stem ext : string) :
  stem <> "" -> Js.free_of "." ext = true ->
  download_name (Some (stem ++ "." ++ ext)) = stem ++ "-restored.png".
Proof.
  intros Hstem Hext. unfold download_name, Js.slice_0_m1. simpl option_map.
  change (stem ++ "." ++ ext) with (stem ++ String "." ext).
  rewrite (split_snoc "." stem ext Hext), removelast_last, join_split.
  rewrite (or_else_nonempty stem "photo" Hstem). reflexivity.
Qed.

Lemma download_name_dotless (n : string) :
  Js.free_of "." n = true -> download_name (Some n) = "photo-restored.png".
Proof.
  intros Hn. unfold download_name, Js.slice_0_m1. simpl option_map.
  rewrite (split_free "." n Hn). reflexivity.
Qed.

Example download_name_grandma :
  download_name (Some "grandma.jpg") = "grandma-restored.png".
Proof. reflexivity. Qed.

Example download_name_two_dots :
  download_name (Some "holiday.1987.jpeg") = "holiday.1987-restored.png".
Proof. reflexivity. Qed.

Example download_name_hidden_file :
  download_name (Some ".profile") = "photo-restored.png".
Proof. reflexivity. Qed.

Lemma download_name_at_last_dot (stem ext : string) :
  Js.free_of "." ext = true ->
  download_name (Some (stem ++ "." ++ ext))
  = (if stem =? "" then "photo" else stem) ++ "-restored.png".
Proof.
  intros Hext. unfold download_name, Js.slice_0_m1. simpl option_map.
  change (stem ++ "." ++ ext) with (stem ++ String "." ext).
  rewrite (split_snoc "." stem ext Hext), removelast_last, join_split.
  reflexivity.
Qed.

(** C9, as the code has it.  [handleDownload] with no restored image calls
    no setter and clicks no link.  With a restored image it calls no setter
    either, so the state it commits is the state it started from, and it
    clicks one link to that image whose suggested name is [download_name]
    of the file name: for a name [stem.ext] (no dot in [ext]) that is
    [stem-restored.png], or [photo-restored.png] when the stem is empty; for
    a name without a dot and for no file name it is [photo-restored.png];
    for [grandma.jpg] it is [grandma-restored.png]. *)
Theorem download_suggests_restored_name :
  (forall s, restoredImage s = None -> handleDownload s = ([], None))
  /\ (forall s img, restoredImage s = Some img -> img <> "" ->
        handleDownload s
          = ([], Some {| href := img; download := download_name (fileName s) |})
        /\ commit (fst (handleDownload s)) s = s)
  /\ (forall stem ext, Js.free_of "." ext = true ->
        download_name (Some (stem ++ "." ++ ext))
        = (if stem =? "" then "photo" else stem) ++ "-restored.png")
  /\ (forall n, Js.free_of "." n = true ->
        download_name (Some n) = "photo-restored.png")
  /\ download_name None = "photo-restored.png"
  /\ download_name (Some "grandma.jpg") = "grandma-restored.png".
Proof.
  split; [|split; [|split; [|split; [|split]]]].
  - intros s H. unfold handleDownload. rewrite H. reflexivity.
  - intros s img H Himg. unfold handleDownload. rewrite H.
    rewrite (truthy_Some img Himg). simpl. split; reflexivity.
  - exact download_name_at_last_dot.
  - exact download_name_dotless.
  - reflexivity.
  - reflexivity.
Qed.

Lemma download_suggests_restored_name_witness :
  handleDownload initial = ([], None)
  /\ handleDownload (mkState (Some "data:image/jpeg;base64,AAAA") (Some "image/jpeg")
                       (Some "data:image/png;base64,BBBB") false None
                       (Some "grandma.jpg"))
     = ([], Some {| href := "data:image/png;base64,BBBB";
                    download := "grandma-restored.png" |})
  /\ download_name (Some ("old.album" ++ "." ++ "webp")) = "old.album-restored.png"
  /\ download_name (Some ("" ++ "." ++ "profile")) = "photo-restored.png"
  /\ download_name (Some "README") = "photo-restored.png".
Proof.
  destruct download_suggests_restored_name as (Hnone & Hsome & Hname & Hdotless & _ & _).
  split; [|split; [|split; [|split]]].
  - apply (Hnone initial). reflexivity.
  - apply (Hsome (mkState (Some "data:image/jpeg;base64,AAAA") (Some "image/jpeg")
                    (Some "data:image/png;base64,BBBB") false None
                    (Some "grandma.jpg")) "data:image/png;base64,BBBB").
    + reflexivity.
    + discriminate.
  - apply (Hname "old.album" "webp"). reflexivity.
  - apply (Hname "" "profile"). reflexivity.
  - apply (Hdotless "README"). reflexivity.
Defined.

(** C9, as stated, fails: the original name [.profile] is known, stripping
    its last extension segment leaves the empty string, and the suggested
    name is not [-restored.png] but [photo-restored.png]: the rule
    "[stem.ext] gives [stem-restored.png]" does not hold for every name. *)
Lemma name_with_only_a_leading_dot_falls_back_to_photo :
  let s := mkState (Some "data:image/jpeg;base64,AAAA") (Some "image/jpeg")
             (Some "data:image/png;base64,BBBB") false None (Some ".profile") in
  handleDownload s
  = ([], Some {| href := "data:image/png;base64,BBBB";
                 download := "photo-restored.png" |})
  /\ ".profile" = "" ++ "." ++ "profile"
  /\ download_name (Some ".profile") <> "" ++ "-restored.png"
  /\ ~ (forall stem ext, Js.free_of "." ext = true ->
          download_name (Some (stem ++ "." ++ ext)) = stem ++ "-restored.png").
Proof.
  cbv zeta. split; [reflexivity|]. split; [reflexivity|]. split; [discriminate|].
  intros H. specialize (H "" "profile" eq_refl). discriminate.
Qed.

(** C10.  With a restored image and a file name that has no dot,
    [handleDownload] suggests [photo-restored.png]: splitting the name at
    the dots gives the name alone, dropping the last piece leaves nothing,
    the join is the empty string, and [|| 'photo'] takes over. *)
Theorem download_dotless_name_falls_back :
  forall s img n,
    restoredImage s = Some img -> img <> "" ->
    fileName s = Some n -> Js.free_of "." n = true ->
    handleDownload s
      = ([], Some {| href := img; download := "photo-restored.png" |}).
Proof.
  intros s img n Himg Hne Hn Hfree. unfold handleDownload.
  rewrite Himg, (truthy_Some img Hne), Hn, (download_name_dotless n Hfree).
  reflexivity.
Qed.

Lemma download_dotless_name_falls_back_witness :
  handleDownload (mkState (Some "data:image/jpeg;base64,AAAA") (Some "image/jpeg")
                    (Some "data:image/png;base64,BBBB") false None
                    (Some "README"))
  = ([], Some {| href := "data:image/png;base64,BBBB";
                 download := "photo-restored.png" |}).
Proof.
  apply (download_dotless_name_falls_back _ "data:image/png;base64,BBBB" "README").
  - reflexivity.
  - discriminate.
  - reflexivity.
  - reflexivity.
Defined.

(** ** Committing setter calls *)

Lemma commit_app (a b : list Action) (s : State) :
  commit (a ++ b)%list s = commit b (commit a s).
Proof. apply fold_left_app. Qed.

Lemma commit_handleReset (s : State) : commit handleReset s = initial.
Proof. reflexivity. Qed.

(** ** Upload *)

(** C8, as the code has it.  With a file selected, [handleFileChange]
    first calls [handleReset], which commits the initial state whatever the
    state was.  When the read settles, in whatever state [t] the component
    then is: a read that succeeded sets the image, its media type and the
    file name and nothing else; a read that failed sets [error] to the
    failed-to-read message and nothing else.  Resumed in the state the reset
    left, a failed read therefore leaves [originalImage] [null] and the
    component in its [Empty] phase. *)
Theorem upload_resets_then_loads :
  forall (f : File) (s t : State),
    handleFileChange (Some f) = (handleReset, Some f)
    /\ commit handleReset s = initial
    /\ match fileToBase64 f with
       | Fulfilled (base64, mime) =>
           commit (handleFileChange_resume f (fileToBase64 f)) t
           = {| originalImage := Some (dataURL (Some mime) base64);
                originalMimeType := Some mime;
                restoredImage := restoredImage t; isLoading := isLoading t;
                error := error t;
                fileName := Some (name f) |}
           /\ commit (handleFileChange_resume f (fileToBase64 f))
                     (commit handleReset s)
              = {| originalImage := Some (dataURL (Some mime) base64);
                   originalMimeType := Some mime;
                   restoredImage := None; isLoading := false; error := None;
                   fileName := Some (name f) |}
       | Rejected _ =>
           commit (handleFileChange_resume f (fileToBase64 f)) t
           = {| originalImage := originalImage t;
                originalMimeType := originalMimeType t;
                restoredImage := restoredImage t; isLoading := isLoading t;
                error := Some "Failed to read the image file.";
                fileName := fileName t |}
           /\ commit (handleFileChange_resume f (fileToBase64 f))
                     (commit handleReset s)
              = {| originalImage := None; originalMimeType := None;
                   restoredImage := None; isLoading := false;
                   error := Some "Failed to read the image file.";
                   fileName := None |}
           /\ phase (commit (handleFileChange_resume f (fileToBase64 f))
                       (commit handleReset s)) = Empty
       end.
Proof.
  intros f s t. split; [reflexivity|]. split; [reflexivity|].
  rewrite commit_handleReset.
  destruct (fileToBase64 f) as [[base64 mime]|e]; cbn; auto.
Qed.

(** C8, as stated, fails: two files are selected one after the other, which
    the page offers while no original is shown; the first file's read
    succeeds, then the second file's read fails.  The failure sets the
    error, but [originalImage] is not [null] and the component is not in
    its [Empty] phase: it shows the first file. *)
Lemma failed_read_keeps_an_original_set_in_between :
  let grandma := {| name := "grandma.jpg"; type := "image/jpeg";
                    readAsDataURL := Some "data:image/jpeg;base64,/9j/4AAQ" |} in
  let broken := {| name := "broken.png"; type := "image/png";
                   readAsDataURL := None |} in
  exists w,
    run_offered None
      [ Upload (Some grandma); Upload (Some broken); FileRead 0; FileRead 0 ]
      (fresh initial) = Some w
    /\ error (state w) = Some "Failed to read the image file."
    /\ originalImage (state w) = Some "data:image/jpeg;base64,/9j/4AAQ"
    /\ fileName (state w) = Some "grandma.jpg"
    /\ originalImage (state w) <> None
    /\ phase (state w) <> Empty.
Proof.
  cbv zeta. eexists. split; [reflexivity|].
  repeat split; try reflexivity; discriminate.
Qed.

(** ** The guard of RequestRestoration *)

(** C3.  When [originalImage] is missing (or empty) or the API key is not
    configured, [handleRestorePhoto] makes one setter call, [setError] with
    the precondition message, and issues no request: the state it commits
    differs from the state it started from in [error] only. *)
Theorem restore_guard_sets_error_only :
  forall (API_KEY : Js.value) (s : State),
    Js.truthy (originalImage s) = false \/ Js.truthy API_KEY = false ->
    handleRestorePhoto API_KEY s = ([ setError (Some "Please upload an image and ensure your API key is configured.") ], None)
    /\ commit (fst (handleRestorePhoto API_KEY s)) s
       = {| originalImage := originalImage s;
            originalMimeType := originalMimeType s;
            restoredImage := restoredImage s;
            isLoading := isLoading s;
            error := Some "Please upload an image and ensure your API key is configured.";
            fileName := fileName s |}
    /\ sent (step API_KEY (fresh s) RequestRestoration) = [].
Proof.
  intros API_KEY s H.
  assert (E : handleRestorePhoto API_KEY s
              = ([ setError (Some "Please upload an image and ensure your API key is configured.") ], None)).
  { unfold handleRestorePhoto.
    destruct H as [H|H]; rewrite H; simpl;
      rewrite ?orb_true_r; reflexivity. }
  split; [exact E|]. split.
  - rewrite E. reflexivity.
  - unfold step, fresh. simpl state. rewrite E. reflexivity.
Qed.

Lemma restore_guard_sets_error_only_witness :
  handleRestorePhoto (Some "key") initial
    = ([ setError (Some "Please upload an image and ensure your API key is configured.") ], None)
  /\ sent (step None
             (fresh (mkState (Some "data:image/png;base64,AAAA") (Some "image/png")
                       None false None (Some "a.png")))
             RequestRestoration) = [].
Proof.
  split.
  - apply (restore_guard_sets_error_only (Some "key") initial). left. reflexivity.
  - apply (restore_guard_sets_error_only None
             (mkState (Some "data:image/png;base64,AAAA") (Some "image/png")
                None false None (Some "a.png"))).
    right. reflexivity.
Defined.

(** ** The response of the Restoration Service *)

Lemma scan_parts_no_image (ps : list Part) :
  Forall no_image ps -> scan_parts ps = ([], false).
Proof.
  induction 1 as [|part rest Hpart _ IH]; simpl; [reflexivity|].
  rewrite Hpart. exact IH.
Qed.

Lemma scan_parts_first_image (pre post : list Part) (part : Part) (blob : Blob) :
  Forall no_image pre -> inlineData part = Some blob ->
  scan_parts (pre ++ part :: post)
  = ([ setRestoredImage (Some (dataURL (mimeType blob) (data blob))) ], true).
Proof.
  intros Hpre Hpart. induction Hpre as [|p rest Hp _ IH]; simpl.
  - rewrite Hpart. reflexivity.
  - rewrite Hp. exact IH.
Qed.

(** What passing the guard means, and what the handler then does. *)
Lemma restore_dispatch (API_KEY : Js.value) (s : State)
    (acts : list Action) (req : Request) :
  handleRestorePhoto API_KEY s = (acts, Some req) ->
  acts = [ setIsLoading true; setError None; setRestoredImage None ]
  /\ Js.truthy (originalImage s) = true
  /\ Js.truthy (originalMimeType s) = true
  /\ Js.truthy API_KEY = true.
Proof.
  unfold handleRestorePhoto.
  destruct (Js.truthy (originalImage s)), (Js.truthy (originalMimeType s)),
    (Js.truthy API_KEY); simpl; intros H; inversion H; auto.
Qed.

Lemma resume_without_image (response : Response) (t : State) :
  Forall no_image (response_parts response) ->
  commit (handleRestorePhoto_resume (Fulfilled response)) t
  = {| originalImage := originalImage t;
       originalMimeType := originalMimeType t;
       restoredImage := restoredImage t;
       isLoading := false;
       error := Some "The AI model did not return an image. It might have refused the request.";
       fileName := fileName t |}.
Proof.
  intros H. unfold handleRestorePhoto_resume, restore_try.
  rewrite (scan_parts_no_image _ H). reflexivity.
Qed.

(** C1.  When no part of the response carries inline image data, the
    resumed handler leaves [restoredImage] as it finds it, sets [error] to
    the message that the model returned no image and may have refused, and
    clears [isLoading].  After a request that passed the guard,
    [restoredImage] is therefore still [null] and the component is in its
    [Failed] phase, not in [Restored]. *)
Theorem response_without_image_fails :
  forall API_KEY s acts req response,
    handleRestorePhoto API_KEY s = (acts, Some req) ->
    Forall no_image (response_parts response) ->
    let s' := commit (handleRestorePhoto_resume (Fulfilled response))
                     (commit acts s) in
    error s' = Some "The AI model did not return an image. It might have refused the request."
    /\ Js.truthy (error s') = true
    /\ restoredImage s' = None
    /\ isLoading s' = false
    /\ phase s' = Failed
    /\ phase s' <> Restored.
Proof.
  intros API_KEY s acts req response Hgo Hparts s'.
  destruct (restore_dispatch _ _ _ _ Hgo) as (-> & Horig & _ & _).
  subst s'. rewrite (resume_without_image _ _ Hparts).
  cbn [error restoredImage isLoading].
  assert (Hphase : forall o, phase
            {| originalImage := originalImage s; originalMimeType := o;
               restoredImage := None; isLoading := false;
               error := Some "The AI model did not return an image. It might have refused the request.";
               fileName := fileName s |} = Failed).
  { intros o. unfold phase. cbn [originalImage isLoading restoredImage error].
    rewrite Horig. reflexivity. }
  repeat split; try reflexivity.
  - apply Hphase.
  - cbn. rewrite Hphase. discriminate.
Qed.

Lemma response_without_image_fails_witness :
  let s := mkState (Some "data:image/png;base64,AAAA") (Some "image/png")
             (Some "data:image/png;base64,OLD") false (Some "earlier") (Some "a.png") in
  let refusal := {| candidates := Some
        [ {| content := Some {| parts := Some
               [ {| inlineData := None; text := Some "I cannot do that." |} ] |} |} ] |} in
  phase (commit (handleRestorePhoto_resume (Fulfilled refusal))
           (commit (fst (handleRestorePhoto (Some "key") s)) s)) = Failed.
Proof.
  intros s refusal.
  refine (proj1 (proj2 (proj2 (proj2 (proj2
    (response_without_image_fails (Some "key") s _ _ refusal _ _)))))).
  - reflexivity.
  - repeat constructor.
Defined.

Lemma resume_with_image (response : Response) (pre post : list Part)
    (part : Part) (blob : Blob) (t : State) :
  response_parts response = (pre ++ part :: post)%list ->
  Forall no_image pre -> inlineData part = Some blob ->
  commit (handleRestorePhoto_resume (Fulfilled response)) t
  = {| originalImage := originalImage t;
       originalMimeType := originalMimeType t;
       restoredImage := Some (dataURL (mimeType blob) (data blob));
       isLoading := false;
       error := error t;
       fileName := fileName t |}.
Proof.
  intros Hparts Hpre Hpart. unfold handleRestorePhoto_resume, restore_try.
  rewrite Hparts, (scan_parts_first_image pre post part blob Hpre Hpart).
  reflexivity.
Qed.

(** C2.  When the first part of the response that carries inline image
    data has payload [P] and media type [M], the resumed handler sets
    [restoredImage] to the data URL [data:M;base64,P], whatever parts follow
    it ([post] is arbitrary and may hold further images); after a request
    that passed the guard, [error] is still [null], [isLoading] is cleared
    and the component is in its [Restored] phase. *)
Theorem first_image_part_is_restored :
  forall API_KEY s acts req response pre post caption P M,
    handleRestorePhoto API_KEY s = (acts, Some req) ->
    response_parts response
      = (pre ++ {| inlineData := Some {| data := Some P; mimeType := Some M |};
                   text := caption |} :: post)%list ->
    Forall no_image pre ->
    let s' := commit (handleRestorePhoto_resume (Fulfilled response))
                     (commit acts s) in
    restoredImage s' = Some ("data:" ++ M ++ ";base64," ++ P)
    /\ error s' = None
    /\ isLoading s' = false
    /\ phase s' = Restored.
Proof.
  intros API_KEY s acts req response pre post caption P M Hgo Hparts Hpre s'.
  destruct (restore_dispatch _ _ _ _ Hgo) as (-> & Horig & _ & _).
  subst s'.
  rewrite (resume_with_image response pre post _ _ _ Hparts Hpre eq_refl).
  cbn [restoredImage error isLoading data mimeType].
  repeat split; try reflexivity.
  unfold phase. cbn. rewrite Horig. reflexivity.
Qed.

Lemma first_image_part_is_restored_witness :
  let s := mkState (Some "data:image/jpeg;base64,AAAA") (Some "image/jpeg")
             None false None (Some "grandma.jpg") in
  let answer := {| candidates := Some
        [ {| content := Some {| parts := Some
               [ {| inlineData := None; text := Some "Here it is." |};
                 {| inlineData := Some {| data := Some "BBBB";
                                          mimeType := Some "image/png" |};
                    text := None |};
                 {| inlineData := Some {| data := Some "CCCC";
                                          mimeType := Some "image/webp" |};
                    text := None |} ] |} |} ] |} in
  restoredImage (commit (handleRestorePhoto_resume (Fulfilled answer))
                   (commit (fst (handleRestorePhoto (Some "key") s)) s))
  = Some "data:image/png;base64,BBBB".
Proof.
  intros s answer.
  refine (proj1 (first_image_part_is_restored (Some "key") s _ _ answer
            [ {| inlineData := None; text := Some "Here it is." |} ]
            [ {| inlineData := Some {| data := Some "CCCC";
                                       mimeType := Some "image/webp" |};
                 text := None |} ]
            None "BBBB" "image/png" _ _ _)).
  - reflexivity.
  - reflexivity.
  - repeat constructor.
Defined.

(** ** The request *)

Lemma string_app_assoc (a b c : string) : (a ++ b) ++ c = a ++ (b ++ c).
Proof. induction a as [|x a IH]; simpl; [reflexivity | now rewrite IH]. Qed.

(** The payload is read back from the data URL built at upload. *)
Lemma payload_of_dataURL (mime payload : string) :
  Js.free_of "," mime = true -> Js.free_of "," payload = true ->
  Js.at_index (Js.split "," (dataURL (Some mime) (Some payload))) 1 = Some payload.
Proof.
  intros Hmime Hpayload. unfold dataURL, Js.template.
  replace ("data:" ++ mime ++ ";base64," ++ payload)
    with (("data:" ++ mime ++ ";base64") ++ String "," payload)
    by (rewrite !string_app_assoc; reflexivity).
  rewrite split_app.
  - rewrite (split_free "," payload Hpayload). reflexivity.
  - rewrite !free_of_app, Hmime. reflexivity.
Qed.

(** What [fileToBase64] resolves with has no comma in it. *)
Lemma fileToBase64_payload_free (f : File) (payload mime : string) :
  fileToBase64 f = Fulfilled (Some payload, mime) ->
  Js.free_of "," payload = true /\ mime = type f.
Proof.
  unfold fileToBase64. destruct (readAsDataURL f) as [result|]; [|discriminate].
  intros H. injection H as Hp Hm. split; [|symmetry; exact Hm].
  change (nth_error (Js.split "," result) 1 = Some payload) in Hp.
  apply nth_error_In in Hp.
  exact (proj1 (Forall_forall _ _) (split_pieces_free "," result) _ Hp).
Qed.

(** C7.  For a file that [fileToBase64] resolves to a payload and whose
    media type is not empty and has no comma in it, and with the API key
    configured: selecting the file, letting the read finish and then asking
    for restoration issues exactly one request, from whatever state the
    component was in.  That request names the model, carries two parts, the
    payload produced at upload with the file's media type and the text
    [RESTORE_PROMPT], and asks for image and text modalities. *)
Theorem upload_then_restore_sends_one_request :
  forall API_KEY f payload mime s0,
    Js.truthy API_KEY = true ->
    fileToBase64 f = Fulfilled (Some payload, mime) ->
    mime <> "" -> Js.free_of "," mime = true ->
    sent (run API_KEY [ Upload (Some f); FileRead 0; RequestRestoration ] (fresh s0))
    = [ {| model := "gemini-2.5-flash-image-preview";
           contents := {| parts := Some
             [ {| inlineData := Some {| data := Some payload;
                                        mimeType := Some mime |};
                  text := None |};
               {| inlineData := None; text := Some RESTORE_PROMPT |} ] |};
           config := {| responseModalities := [IMAGE; TEXT] |} |} ].
Proof.
  intros API_KEY f payload mime s0 Hkey Hread Hmime Hfree.
  destruct (fileToBase64_payload_free f payload mime Hread) as [Hpayload _].
  unfold run. cbn [fold_left].
  unfold step at 3. cbn [handleFileChange fresh state reading pending sent clicked enqueue app].
  unfold step at 2. cbn [nth_error state reading pending sent clicked].
  rewrite Hread, commit_handleReset.
  cbn [handleFileChange_resume commit fold_left apply initial
       originalImage originalMimeType restoredImage isLoading error fileName].
  unfold step. cbn [state pending sent].
  unfold handleRestorePhoto.
  cbn [originalImage originalMimeType].
  rewrite (truthy_Some mime Hmime), Hkey.
  assert (Hurl : Js.truthy (Some (dataURL (Some mime) (Some payload))) = true)
    by reflexivity.
  rewrite Hurl. cbn [negb orb].
  cbn [Js.template]. rewrite (payload_of_dataURL mime payload Hfree Hpayload).
  reflexivity.
Qed.

Lemma upload_then_restore_sends_one_request_witness :
  let grandma := {| name := "grandma.jpg"; type := "image/jpeg";
                    readAsDataURL := Some "data:image/jpeg;base64,/9j/4AAQ" |} in
  List.length
    (sent (run (Some "key") [ Upload (Some grandma); FileRead 0; RequestRestoration ]
             (fresh initial))) = 1.
Proof.
  intros grandma.
  rewrite (upload_then_restore_sends_one_request (Some "key") grandma
             "/9j/4AAQ" "image/jpeg" initial).
  - reflexivity.
  - reflexivity.
  - reflexivity.
  - discriminate.
  - reflexivity.
Defined.

(** ** The request transition *)

Lemma resume_clears_loading (o : Settled Response) (t : State) :
  isLoading (commit (handleRestorePhoto_resume o) t) = false.
Proof.
  unfold handleRestorePhoto_resume.
  destruct (restore_try o) as [acts thrown].
  rewrite !commit_app. reflexivity.
Qed.

(** C6, as the code has it.  A request that passes the guard makes three
    setter calls in one synchronous stretch: [setIsLoading(true)] first,
    then [setError(null)], then [setRestoredImage(null)].  In the state they
    commit, [isLoading] is true and [error] is [null]; and once the request
    has settled, whatever the outcome, [isLoading] is false in the state the
    resumed handler commits. *)
Theorem request_transition_sets_loading_then_clears_error :
  forall API_KEY s acts req,
    handleRestorePhoto API_KEY s = (acts, Some req) ->
    acts = [ setIsLoading true; setError None; setRestoredImage None ]
    /\ called_before (setIsLoading true) (setError None) acts
    /\ isLoading (commit acts s) = true
    /\ error (commit acts s) = None
    /\ forall o, isLoading (commit (handleRestorePhoto_resume o) (commit acts s)) = false.
Proof.
  intros API_KEY s acts req Hgo.
  destruct (restore_dispatch _ _ _ _ Hgo) as (-> & _).
  split; [reflexivity|]. split.
  - exists [], [ setError None; setRestoredImage None ].
    split; [reflexivity | left; reflexivity].
  - repeat split. intros o. apply resume_clears_loading.
Qed.

Lemma request_transition_sets_loading_then_clears_error_witness :
  let s := mkState (Some "data:image/png;base64,AAAA") (Some "image/png")
             None false (Some "earlier failure") (Some "a.png") in
  error (commit (fst (handleRestorePhoto (Some "key") s)) s) = None.
Proof.
  intros s.
  refine (proj1 (proj2 (proj2 (proj2
    (request_transition_sets_loading_then_clears_error (Some "key") s _ _ _))))).
  reflexivity.
Defined.

(** C6, as stated, fails: in the setter calls of a request that passes the
    guard, [setError(null)] is not followed by [setIsLoading(true)], it
    follows it; after the first call alone [isLoading] is already true while
    the earlier error is still there. *)
Lemma error_is_not_cleared_before_loading_is_set :
  let s := mkState (Some "data:image/png;base64,AAAA") (Some "image/png")
             None false (Some "earlier failure") (Some "a.png") in
  exists acts req,
    handleRestorePhoto (Some "key") s = (acts, Some req)
    /\ ~ called_before (setError None) (setIsLoading true) acts
    /\ isLoading (commit (firstn 1 acts) s) = true
    /\ error (commit (firstn 1 acts) s) = Some "earlier failure".
Proof.
  intros s. eexists. eexists. split; [reflexivity|]. split; [|split; reflexivity].
  intros (before & after & Hacts & Hin).
  destruct before as [|a0 [|a1 [|a2 before]]]; cbn in Hacts.
  - discriminate.
  - inversion Hacts; subst. cbn in Hin. destruct Hin as [H|[]]; discriminate.
  - discriminate.
  - destruct before; discriminate.
Qed.

(** ** Worlds the page can reach *)

Lemma scan_parts_calls (ps : list Part) :
  fst (scan_parts ps) = [] \/ exists v, fst (scan_parts ps) = [ setRestoredImage v ].
Proof.
  induction ps as [|part rest IH]; simpl; [now left|].
  destruct (inlineData part); [right; eexists; reflexivity | exact IH].
Qed.

Lemma resume_keeps_original (o : Settled Response) (t : State) :
  originalImage (commit (handleRestorePhoto_resume o) t) = originalImage t.
Proof.
  unfold handleRestorePhoto_resume, restore_try.
  destruct o as [response|e]; [|reflexivity].
  pose proof (scan_parts_calls (response_parts response)) as H.
  destruct (scan_parts (response_parts response)) as [acts found].
  cbn [fst] in H.
  destruct H as [->|[v ->]]; destruct found; reflexivity.
Qed.

Lemma file_read_keeps (f : File) (t : State) :
  let t' := commit (handleFileChange_resume f (fileToBase64 f)) t in
  isLoading t' = isLoading t
  /\ restoredImage t' = restoredImage t
  /\ (originalImage t <> None -> originalImage t' <> None).
Proof.
  destruct (fileToBase64 f) as [[base64 mime]|e]; cbn; repeat split; auto.
  discriminate.
Qed.

Lemma truthy_not_None (v : Js.value) : Js.truthy v = true -> v <> None.
Proof. destruct v; [discriminate | discriminate]. Qed.

Lemma fresh_initial_consistent : consistent (fresh initial).
Proof. split; [reflexivity | intros H; exact H]. Qed.

Lemma step_consistent (API_KEY : Js.value) (w : World) (e : Event) :
  consistent w -> offered (state w) e = true -> consistent (step API_KEY w e).
Proof.
  intros [Hload Hrest] Hoff. destruct e as [file|i| |i o| |]; cbn [step offered] in *.
  - (* Upload *)
    apply andb_true_iff in Hoff as [_ Hidle]. apply negb_true_iff in Hidle.
    rewrite Hidle in Hload.
    destruct file as [f|]; cbn [handleFileChange].
    + split; cbn; [exact Hload | intros H; exact H].
    + split; cbn [state pending commit fold_left]; [rewrite Hidle; exact Hload | exact Hrest].
  - (* FileRead *)
    destruct (nth_error (reading w) i) as [f|]; [|split; assumption].
    destruct (file_read_keeps f (state w)) as (Hl & Hr & Ho).
    split; cbn [state pending].
    + rewrite Hl. destruct (isLoading (state w)); [|exact Hload].
      destruct Hload as [Horig Hone]. split; [apply Ho, Horig | exact Hone].
    + rewrite Hr. intros H. apply Ho, Hrest, H.
  - (* RequestRestoration *)
    apply andb_true_iff in Hoff as [Horig Hidle]. apply negb_true_iff in Hidle.
    rewrite Hidle in Hload.
    destruct (handleRestorePhoto API_KEY (state w)) as [acts [req|]] eqn:Hgo.
    + destruct (restore_dispatch _ _ _ _ Hgo) as (-> & _).
      split; cbn.
      * split; [apply truthy_not_None, Horig|]. rewrite Hload. now exists req.
      * intros H. now contradiction H.
    + unfold handleRestorePhoto in Hgo.
      destruct (negb (Js.truthy (originalImage (state w)))
                || negb (Js.truthy (originalMimeType (state w)))
                || negb (Js.truthy API_KEY)); inversion Hgo; subst.
      split; cbn; [rewrite Hidle; exact Hload | exact Hrest].
  - (* ServiceSettles *)
    destruct (nth_error (pending w) i) as [r|] eqn:Hi; [|split; assumption].
    destruct (isLoading (state w)).
    + destruct Hload as [Horig [r0 Hone]]. rewrite Hone in *.
      destruct i as [|[|i]]; cbn in Hi; try discriminate.
      split; cbn [state pending drop_nth].
      * rewrite resume_clears_loading. reflexivity.
      * intros _. rewrite resume_keeps_original. exact Horig.
    + rewrite Hload in Hi. destruct i; discriminate.
  - (* Download *)
    unfold handleDownload.
    destruct (negb (Js.truthy (restoredImage (state w))));
      split; cbn; assumption.
  - (* Reset *)
    apply andb_true_iff in Hoff as [_ Hidle]. apply negb_true_iff in Hidle.
    rewrite Hidle in Hload.
    split; cbn; [exact Hload | intros H; exact H].
Qed.

Lemma run_offered_consistent (API_KEY : Js.value) (evs : list Event) :
  forall w w', consistent w -> run_offered API_KEY evs w = Some w' -> consistent w'.
Proof.
  induction evs as [|e rest IH]; intros w w' Hw Hrun; cbn in Hrun.
  - injection Hrun as <-. exact Hw.
  - destruct (offered (state w) e) eqn:Hoff; [|discriminate].
    exact (IH _ _ (step_consistent API_KEY w e Hw Hoff) Hrun).
Qed.

Lemma step_dispatch (API_KEY : Js.value) (w : World)
    (acts : list Action) (req : Request) :
  handleRestorePhoto API_KEY (state w) = (acts, Some req) ->
  step API_KEY w RequestRestoration
  = {| state := commit acts (state w);
       reading := reading w;
       pending := (pending w ++ [ req ])%list;
       sent := (sent w ++ [ req ])%list;
       clicked := clicked w |}.
Proof. intros H. cbn [step]. rewrite H. reflexivity. Qed.

Lemma restore_passes (API_KEY : Js.value) (s : State) :
  Js.truthy (originalImage s) = true ->
  Js.truthy (originalMimeType s) = true ->
  Js.truthy API_KEY = true ->
  exists req,
    handleRestorePhoto API_KEY s
    = ([ setIsLoading true; setError None; setRestoredImage None ], Some req).
Proof.
  intros Ho Hm Hk. unfold handleRestorePhoto. rewrite Ho, Hm, Hk.
  eexists. reflexivity.
Qed.

(** C4, as the code has it.  In every world reached from the initial one
    by intents the page offers and by the settling of promises, [isLoading]
    is true exactly when a request to the service is in flight.  When the
    page offers Restore and the media type and the API key are there, the
    handler does issue the request, the only one in flight, and commits
    [isLoading = true]; the resumed handler commits [isLoading = false] from
    any state and for any outcome (an image, no image, or a thrown error of
    any kind, the [finally] block), and with it the request in flight is
    gone. *)
Theorem loading_spans_the_request :
  forall API_KEY evs w,
    run_offered API_KEY evs (fresh initial) = Some w ->
    (isLoading (state w) = true <-> pending w <> [])
    /\ (offered (state w) RequestRestoration = true ->
        Js.truthy (originalMimeType (state w)) = true ->
        Js.truthy API_KEY = true ->
        exists req,
          pending (step API_KEY w RequestRestoration) = [ req ]
          /\ isLoading (state (step API_KEY w RequestRestoration)) = true)
    /\ (forall acts req, handleRestorePhoto API_KEY (state w) = (acts, Some req) ->
          isLoading (commit acts (state w)) = true)
    /\ (forall o t, isLoading (commit (handleRestorePhoto_resume o) t) = false)
    /\ (forall o, pending w <> [] ->
          isLoading (state (step API_KEY w (ServiceSettles 0 o))) = false
          /\ pending (step API_KEY w (ServiceSettles 0 o)) = []).
Proof.
  intros API_KEY evs w Hrun.
  destruct (run_offered_consistent API_KEY evs _ _ fresh_initial_consistent Hrun)
    as [Hload _].
  split; [|split; [|split; [|split]]].
  - destruct (isLoading (state w)).
    + destruct Hload as [_ [r ->]]. split; [discriminate | reflexivity].
    + rewrite Hload. split; [discriminate | intros H; now contradiction H].
  - intros Hoff Hmime Hkey. cbn [offered] in Hoff.
    apply andb_true_iff in Hoff as [Horig Hidle]. apply negb_true_iff in Hidle.
    rewrite Hidle in Hload.
    destruct (restore_passes API_KEY (state w) Horig Hmime Hkey) as [req Hgo].
    exists req. rewrite (step_dispatch _ _ _ _ Hgo). cbn [pending state].
    rewrite Hload. split; reflexivity.
  - intros acts req Hgo. destruct (restore_dispatch _ _ _ _ Hgo) as (-> & _).
    reflexivity.
  - apply resume_clears_loading.
  - intros o Hpending. destruct (isLoading (state w)).
    + destruct Hload as [_ [r Hone]]. cbn [step]. rewrite Hone. cbn.
      split; [apply resume_clears_loading | reflexivity].
    + contradiction.
Qed.

Lemma loading_spans_the_request_witness :
  let grandma := {| name := "grandma.jpg"; type := "image/jpeg";
                    readAsDataURL := Some "data:image/jpeg;base64,/9j/4AAQ" |} in
  let ready := run (Some "key") [ Upload (Some grandma); FileRead 0 ] (fresh initial) in
  let restoring := step (Some "key") ready RequestRestoration in
  isLoading (state ready) = false
  /\ (exists req, pending restoring = [ req ] /\ isLoading (state restoring) = true)
  /\ isLoading (state (step (Some "key") restoring
                         (ServiceSettles 0 (Rejected {| message := Some "network timeout" |}))))
     = false.
Proof.
  intros grandma ready restoring.
  destruct (loading_spans_the_request (Some "key")
              [ Upload (Some grandma); FileRead 0 ] ready eq_refl)
    as (_ & Hdispatch & _).
  destruct (loading_spans_the_request (Some "key")
              [ Upload (Some grandma); FileRead 0; RequestRestoration ] restoring eq_refl)
    as (_ & _ & _ & _ & Hsettle).
  split; [reflexivity|]. split.
  - apply Hdispatch; reflexivity.
  - apply Hsettle. discriminate.
Defined.

(** C4, as stated, fails for the handlers on their own: after a Reset while
    the request is in flight, and after a second Restore while the first is
    in flight followed by the settling of one of the two, a request is still
    in flight and [isLoading] is false. *)
Lemma loading_is_cleared_while_a_request_is_in_flight :
  let grandma := {| name := "grandma.jpg"; type := "image/jpeg";
                    readAsDataURL := Some "data:image/jpeg;base64,/9j/4AAQ" |} in
  let after_reset :=
    run (Some "key")
      [ Upload (Some grandma); FileRead 0; RequestRestoration; Reset ]
      (fresh initial) in
  let after_second_restore :=
    run (Some "key")
      [ Upload (Some grandma); FileRead 0; RequestRestoration; RequestRestoration;
        ServiceSettles 0 (Rejected {| message := Some "network timeout" |}) ]
      (fresh initial) in
  (List.length (pending after_reset) = 1 /\ isLoading (state after_reset) = false)
  /\ (List.length (pending after_second_restore) = 1
      /\ isLoading (state after_second_restore) = false)
  /\ ~ (isLoading (state after_reset) = true <-> pending after_reset <> []).
Proof.
  cbv zeta. split; [split; reflexivity|]. split; [split; reflexivity|].
  intros [_ H]. discriminate H. discriminate.
Qed.

(** C5, as the code has it.  In every world reached from the initial one
    by intents the page offers (it offers neither Reset nor Upload while
    [isLoading]) and by the settling of promises, [restoredImage] is not
    [null] only if [originalImage] is not [null]. *)
Theorem restored_image_has_an_original :
  forall API_KEY evs w,
    run_offered API_KEY evs (fresh initial) = Some w ->
    restoredImage (state w) <> None -> originalImage (state w) <> None.
Proof.
  intros API_KEY evs w Hrun.
  exact (proj2 (run_offered_consistent API_KEY evs _ _ fresh_initial_consistent Hrun)).
Qed.

Lemma restored_image_has_an_original_witness :
  let grandma := {| name := "grandma.jpg"; type := "image/jpeg";
                    readAsDataURL := Some "data:image/jpeg;base64,/9j/4AAQ" |} in
  let answer := {| candidates := Some
        [ {| content := Some {| parts := Some
               [ {| inlineData := Some {| data := Some "BBBB";
                                          mimeType := Some "image/png" |};
                    text := None |} ] |} |} ] |} in
  let evs := [ Upload (Some grandma); FileRead 0; RequestRestoration;
               ServiceSettles 0 (Fulfilled answer); Download ] in
  originalImage (state (run (Some "key") evs (fresh initial))) <> None.
Proof.
  intros grandma answer evs.
  apply (restored_image_has_an_original (Some "key") evs).
  - reflexivity.
  - discriminate.
Defined.

(** C5, as stated, fails: Reset while the request is in flight (the handler
    itself does not check [isLoading]) clears the original, and the response
    that arrives afterwards still sets [restoredImage]. *)
Lemma late_response_after_reset_restores_without_original :
  let grandma := {| name := "grandma.jpg"; type := "image/jpeg";
                    readAsDataURL := Some "data:image/jpeg;base64,/9j/4AAQ" |} in
  let answer := {| candidates := Some
        [ {| content := Some {| parts := Some
               [ {| inlineData := Some {| data := Some "BBBB";
                                          mimeType := Some "image/png" |};
                    text := None |} ] |} |} ] |} in
  let w := run (Some "key")
             [ Upload (Some grandma); FileRead 0; RequestRestoration; Reset;
               ServiceSettles 0 (Fulfilled answer) ]
             (fresh initial) in
  restoredImage (state w) = Some "data:image/png;base64,BBBB"
  /\ originalImage (state w) = None
  /\ ~ (restoredImage (state w) <> None -> originalImage (state w) <> None).
Proof.
  cbv zeta. split; [reflexivity|]. split; [reflexivity|].
  intros H. apply H; [discriminate | reflexivity].
Qed.

(** * Further properties of the component *)

(** ** What every run keeps *)

Lemma scan_parts_result (ps : list Part) :
  scan_parts ps = ([], false)
  \/ exists blob,
       scan_parts ps
       = ([ setRestoredImage (Some (dataURL (mimeType blob) (data blob))) ], true).
Proof.
  induction ps as [|part rest IH]; simpl; [now left|].
  destruct (inlineData part) as [blob|]; [right; now exists blob | exact IH].
Qed.

(** The resumed [handleRestorePhoto] touches [restoredImage], [error] and
    [isLoading] only. *)
Lemma resume_effect (o : Settled Response) (t : State) :
  exists r e,
    commit (handleRestorePhoto_resume o) t
    = mkState (originalImage t) (originalMimeType t) r false e (fileName t)
    /\ (r = restoredImage t
        \/ exists blob, r = Some (dataURL (mimeType blob) (data blob))).
Proof.
  unfold handleRestorePhoto_resume, restore_try.
  destruct o as [response|err].
  - destruct (scan_parts_result (response_parts response)) as [->|[blob ->]].
    + eexists. eexists. split; [reflexivity | now left].
    + eexists. eexists. split; [reflexivity | right; now exists blob].
  - eexists. eexists. split; [reflexivity | now left].
Qed.

Lemma initial_tidy : tidy initial.
Proof. unfold tidy; cbn; repeat split; discriminate. Qed.

Lemma step_tidy (API_KEY : Js.value) (w : World) (e : Event) :
  tidy (state w) -> tidy (state (step API_KEY w e)).
Proof.
  intros Hw. pose proof Hw as (Horig & Hrest & Hload).
  destruct e as [file|i| |i o| |]; cbn [step].
  - destruct file as [f|]; cbn [handleFileChange state]; [|exact Hw].
    rewrite commit_handleReset. exact initial_tidy.
  - destruct (nth_error (reading w) i) as [f|]; [|exact Hw].
    cbn [state]. unfold tidy.
    destruct (fileToBase64 f) as [[base64 mime]|err]; cbn.
    + split; [|split; assumption]. exists mime, base64, (name f). now repeat split.
    + repeat split; assumption.
  - destruct (handleRestorePhoto API_KEY (state w)) as [acts [req|]] eqn:Hgo.
    + destruct (restore_dispatch _ _ _ _ Hgo) as (-> & _).
      cbn. unfold tidy. cbn. repeat split; trivial.
    + unfold handleRestorePhoto in Hgo.
      destruct (negb (Js.truthy (originalImage (state w)))
                || negb (Js.truthy (originalMimeType (state w)))
                || negb (Js.truthy API_KEY)); inversion Hgo; subst.
      cbn. unfold tidy. cbn. repeat split; assumption.
  - destruct (nth_error (pending w) i); [|exact Hw].
    cbn [state].
    destruct (resume_effect o (state w)) as (r' & err & -> & Hr).
    unfold tidy. cbn. split; [exact Horig|]. split; [|discriminate].
    destruct Hr as [->|[blob ->]]; [exact Hrest | now exists blob].
  - unfold handleDownload.
    destruct (negb (Js.truthy (restoredImage (state w)))); exact Hw.
  - cbn [state]. rewrite commit_handleReset. exact initial_tidy.
Qed.

Lemma run_tidy (API_KEY : Js.value) (evs : list Event) :
  forall w, tidy (state w) -> tidy (state (run API_KEY evs w)).
Proof.
  unfold run. induction evs as [|e rest IH]; intros w Hw; cbn [fold_left].
  - exact Hw.
  - apply IH, step_tidy, Hw.
Qed.

Lemma run_offered_run (API_KEY : Js.value) (evs : list Event) :
  forall w w', run_offered API_KEY evs w = Some w' -> w' = run API_KEY evs w.
Proof.
  unfold run. induction evs as [|e rest IH]; intros w w' H; cbn in *.
  - now injection H as <-.
  - destruct (offered (state w) e); [exact (IH _ _ H) | discriminate].
Qed.

Lemma dataURL_truthy (mime payload : Js.value) :
  Js.truthy (Some (dataURL mime payload)) = true.
Proof. reflexivity. Qed.

Lemma tidy_original_truthy (s : State) :
  tidy s ->
  Js.truthy (originalImage s)
  = match originalImage s with Some _ => true | None => false end.
Proof.
  intros (H & _). destruct (originalImage s) as [url|]; [|reflexivity].
  destruct H as (mime & base64 & n & -> & _). reflexivity.
Qed.

Lemma tidy_restored_truthy (s : State) :
  tidy s ->
  Js.truthy (restoredImage s)
  = match restoredImage s with Some _ => true | None => false end.
Proof.
  intros (_ & H & _). destruct (restoredImage s) as [url|]; [|reflexivity].
  destruct H as (blob & ->). reflexivity.
Qed.

(** X1.  Whatever the sequence of events, offered by the page or not, the
    three cells written by an upload are [null] together or set together,
    and when set the image is the data URL built from the stored media
    type; the image is never the empty string, so [!originalImage] tests
    for [null]. *)
Theorem upload_cells_go_together :
  forall API_KEY evs,
    let s := state (run API_KEY evs (fresh initial)) in
    match originalImage s with
    | None => originalMimeType s = None /\ fileName s = None
    | Some url =>
        exists mime base64 n,
          url = "data:" ++ mime ++ ";base64," ++ Js.template base64
          /\ originalMimeType s = Some mime /\ fileName s = Some n
    end
    /\ Js.truthy (originalImage s)
       = match originalImage s with Some _ => true | None => false end.
Proof.
  intros API_KEY evs s.
  assert (Ht : tidy s) by (apply run_tidy; exact initial_tidy).
  split; [exact (proj1 Ht) | exact (tidy_original_truthy s Ht)].
Qed.

(** X2.  Whatever the sequence of events, there is no restored image while
    [isLoading] is true, so the restored column of [ImageDisplay] shows
    exactly one of its three elements: the spinner, the restored picture or
    the placeholder. *)
Theorem restored_column_shows_one_element :
  forall API_KEY evs,
    let s := state (run API_KEY evs (fresh initial)) in
    (isLoading s = true -> restoredImage s = None)
    /\ shown (ImageDisplay (restoredImage s) (isLoading s)) = 1.
Proof.
  intros API_KEY evs s.
  assert (Ht : tidy s) by (apply run_tidy; exact initial_tidy).
  destruct Ht as (_ & _ & Hload). split; [exact Hload|].
  unfold shown, ImageDisplay. cbn [overlay picture placeholder].
  destruct (isLoading s).
  - rewrite (Hload eq_refl). reflexivity.
  - destruct (Js.truthy (restoredImage s)); reflexivity.
Qed.

Lemma restored_column_shows_one_element_witness :
  let grandma := {| name := "grandma.jpg"; type := "image/jpeg";
                    readAsDataURL := Some "data:image/jpeg;base64,/9j/4AAQ" |} in
  let answer := {| candidates := Some
        [ {| content := Some {| parts := Some
               [ {| inlineData := Some {| data := Some "BBBB";
                                          mimeType := Some "image/png" |};
                    text := None |} ] |} |} ] |} in
  let evs := [ Upload (Some grandma); FileRead 0; RequestRestoration;
               ServiceSettles 0 (Fulfilled answer); RequestRestoration ] in
  restoredImage (state (run (Some "key") evs (fresh initial))) = None.
Proof.
  intros grandma answer evs.
  apply (proj1 (restored_column_shows_one_element (Some "key") evs)).
  reflexivity.
Defined.

(** X3.  In every world the page can reach, at most one request to the
    service is in flight, and none is whenever the page offers an intent
    (Upload, Restore, Download or Reset): the [disabled={isLoading}] of the
    controls is what keeps requests from overlapping. *)
Theorem page_keeps_one_request_in_flight :
  forall API_KEY evs w e,
    run_offered API_KEY evs (fresh initial) = Some w ->
    List.length (pending w) <= 1
    /\ (is_intent e = true -> offered (state w) e = true -> pending w = []).
Proof.
  intros API_KEY evs w e Hrun.
  destruct (run_offered_consistent API_KEY evs _ _ fresh_initial_consistent Hrun)
    as [Hload _].
  destruct (isLoading (state w)) eqn:Hl.
  - destruct Hload as [_ [r ->]]. split; [cbn; lia|].
    intros Hint Hoff. destruct e; cbn [offered is_intent] in *;
      rewrite ?Hl, ?orb_true_r, ?andb_false_r in Hoff; discriminate.
  - rewrite Hload. split; [cbn; lia | reflexivity].
Qed.

Lemma page_keeps_one_request_in_flight_witness :
  let grandma := {| name := "grandma.jpg"; type := "image/jpeg";
                    readAsDataURL := Some "data:image/jpeg;base64,/9j/4AAQ" |} in
  let evs := [ Upload (Some grandma); FileRead 0; RequestRestoration;
               ServiceSettles 0 (Rejected {| message := None |}) ] in
  pending (run (Some "key") evs (fresh initial)) = [].
Proof.
  intros grandma evs.
  apply (proj2 (page_keeps_one_request_in_flight (Some "key") evs _ Reset eq_refl));
    reflexivity.
Defined.

(** X4.  In every world the page can reach, [isLoading] is false whenever
    there is no original image, that is whenever [FileUploader] is rendered:
    the uploader is never shown disabled, and selecting a file is offered. *)
Theorem uploader_is_never_disabled :
  forall API_KEY evs w file,
    run_offered API_KEY evs (fresh initial) = Some w ->
    Js.truthy (originalImage (state w)) = false ->
    isLoading (state w) = false
    /\ offered (state w) (Upload file) = true.
Proof.
  intros API_KEY evs w file Hrun Hnone.
  destruct (run_offered_consistent API_KEY evs _ _ fresh_initial_consistent Hrun)
    as [Hload _].
  assert (Ht : tidy (state w)).
  { rewrite (run_offered_run _ _ _ _ Hrun). apply run_tidy. exact initial_tidy. }
  rewrite (tidy_original_truthy _ Ht) in Hnone.
  assert (Hl : isLoading (state w) = false).
  { destruct (isLoading (state w)); [|reflexivity].
    destruct Hload as [Horig _].
    destruct (originalImage (state w)); [discriminate | now contradiction Horig]. }
  split; [exact Hl|].
  cbn [offered]. rewrite Hl, (tidy_original_truthy _ Ht).
  destruct (originalImage (state w)); [discriminate | reflexivity].
Qed.

Lemma uploader_is_never_disabled_witness :
  let broken := {| name := "x.png"; type := "image/png"; readAsDataURL := None |} in
  let evs := [ Upload (Some broken); FileRead 0 ] in
  isLoading (state (run (Some "key") evs (fresh initial))) = false.
Proof.
  intros broken evs.
  refine (proj1 (uploader_is_never_disabled (Some "key") evs
                   (run (Some "key") evs (fresh initial)) None eq_refl _)).
  reflexivity.
Defined.

(** ** Failures of the service call *)

Lemma or_else_truthy (v : Js.value) (d : string) :
  d <> "" -> Js.truthy (Some (Js.or_else v d)) = true.
Proof.
  intros Hd. destruct v as [m|]; cbn.
  - destruct (String.eqb_spec m ""); [|destruct (String.eqb_spec m ""); [contradiction|reflexivity]].
    destruct (String.eqb_spec d ""); [contradiction|reflexivity].
  - destruct (String.eqb_spec d ""); [contradiction|reflexivity].
Qed.

Lemma phase_failed (orig mime err name' : Js.value) :
  Js.truthy orig = true -> Js.truthy err = true ->
  phase (mkState orig mime None false err name') = Failed.
Proof.
  intros Ho He. unfold phase. cbn. rewrite Ho, He. reflexivity.
Qed.

(** X5.  When the call to the service throws or rejects with [e], after a
    request that passed the guard, the [catch] block sets [error] to
    [e.message], or to the generic restoration message when [e.message] is
    missing or empty; [restoredImage] stays [null], [isLoading] is cleared
    and the component is in its [Failed] phase. *)
Theorem rejected_call_reports_its_message :
  forall API_KEY s acts req e,
    handleRestorePhoto API_KEY s = (acts, Some req) ->
    let s' := commit (handleRestorePhoto_resume (Rejected e)) (commit acts s) in
    error s'
    = Some (match message e with
            | Some m => if m =? "" then "An error occurred during the restoration process."
                        else m
            | None => "An error occurred during the restoration process."
            end)
    /\ Js.truthy (error s') = true
    /\ restoredImage s' = None
    /\ isLoading s' = false
    /\ phase s' = Failed.
Proof.
  intros API_KEY s acts req e Hgo s'.
  destruct (restore_dispatch _ _ _ _ Hgo) as (-> & Horig & _ & _).
  subst s'. cbn -[Js.or_else Js.truthy String.eqb phase].
  assert (He : Js.truthy (Some (Js.or_else (message e)
                "An error occurred during the restoration process.")) = true)
    by (apply or_else_truthy; discriminate).
  repeat split; try reflexivity; try exact He.
  apply phase_failed; assumption.
Qed.

Lemma rejected_call_reports_its_message_witness :
  let s := mkState (Some "data:image/png;base64,AAAA") (Some "image/png")
             None false None (Some "a.png") in
  error (commit (handleRestorePhoto_resume (Rejected {| message := Some "network timeout" |}))
           (commit (fst (handleRestorePhoto (Some "key") s)) s))
  = Some "network timeout".
Proof.
  intros s.
  refine (proj1 (rejected_call_reports_its_message (Some "key") s _ _
                   {| message := Some "network timeout" |} _)).
  reflexivity.
Defined.

(** X6.  A response without candidates, with an empty list of candidates,
    or whose first candidate has no content, no parts or an empty list of
    parts is handled like a refusal, whatever the other candidates hold:
    after a request that passed the guard, [error] is the no-image message,
    [restoredImage] stays [null] and [isLoading] is cleared. *)
Theorem response_without_parts_is_a_refusal :
  forall API_KEY s acts req response,
    handleRestorePhoto API_KEY s = (acts, Some req) ->
    (candidates response = None
     \/ candidates response = Some []
     \/ exists c others,
          candidates response = Some (c :: others)
          /\ (content c = None
              \/ content c = Some {| parts := None |}
              \/ content c = Some {| parts := Some [] |})) ->
    let s' := commit (handleRestorePhoto_resume (Fulfilled response))
                     (commit acts s) in
    error s' = Some "The AI model did not return an image. It might have refused the request."
    /\ restoredImage s' = None
    /\ isLoading s' = false
    /\ phase s' = Failed.
Proof.
  intros API_KEY s acts req response Hgo Hshape s'.
  destruct (restore_dispatch _ _ _ _ Hgo) as (-> & Horig & _ & _).
  assert (Hparts : response_parts response = []).
  { unfold response_parts.
    destruct Hshape as [ -> | [ -> | (c & others & -> & [ -> | [ -> | -> ] ]) ] ];
      reflexivity. }
  assert (Hnone : Forall no_image (response_parts response))
    by (rewrite Hparts; constructor).
  subst s'. rewrite (resume_without_image _ _ Hnone).
  cbn [error restoredImage isLoading commit fold_left apply].
  repeat split. apply phase_failed; [exact Horig | reflexivity].
Qed.

Lemma response_without_parts_is_a_refusal_witness :
  let s := mkState (Some "data:image/png;base64,AAAA") (Some "image/png")
             None false None (Some "a.png") in
  let picture_part := {| inlineData := Some {| data := Some "BBBB";
                                               mimeType := Some "image/png" |};
                         text := None |} in
  let response := {| candidates := Some
        [ {| content := None |};
          {| content := Some {| parts := Some [ picture_part ] |} |} ] |} in
  restoredImage (commit (handleRestorePhoto_resume (Fulfilled response))
                   (commit (fst (handleRestorePhoto (Some "key") s)) s)) = None.
Proof.
  intros s picture_part response.
  refine (proj1 (proj2 (response_without_parts_is_a_refusal (Some "key") s _ _
                          response _ _))).
  - reflexivity.
  - right. right. eexists. eexists. split; [reflexivity | left; reflexivity].
Defined.

(** ** What the request depends on *)

Lemma restore_after_dispatch (API_KEY : Js.value) (s : State) :
  handleRestorePhoto API_KEY
    (commit [ setIsLoading true; setError None; setRestoredImage None ] s)
  = handleRestorePhoto API_KEY s.
Proof. reflexivity. Qed.

(** [handleRestorePhoto] reads two cells only, [originalImage] and
    [originalMimeType], the dependencies listed in its [useCallback]. *)
Lemma restore_reads_image_and_media_type_only (API_KEY : Js.value) (s t : State) :
  originalImage s = originalImage t ->
  originalMimeType s = originalMimeType t ->
  handleRestorePhoto API_KEY s = handleRestorePhoto API_KEY t.
Proof.
  intros Himg Hmime. unfold handleRestorePhoto.
  rewrite Himg, Hmime. reflexivity.
Qed.

(** X8.  The handler itself does not look at [isLoading]: from a state that
    passes the guard, two calls in a row, without the button's
    [disabled={isLoading}] in between, issue the same request twice and
    leave both in flight. *)
Theorem handler_does_not_guard_reentry :
  forall API_KEY w acts req,
    handleRestorePhoto API_KEY (state w) = (acts, Some req) ->
    let w' := run API_KEY [ RequestRestoration; RequestRestoration ] w in
    sent w' = (sent w ++ [ req; req ])%list
    /\ pending w' = (pending w ++ [ req; req ])%list
    /\ isLoading (state w') = true.
Proof.
  intros API_KEY w acts req Hgo w'. subst w'.
  destruct (restore_dispatch _ _ _ _ Hgo) as (-> & _).
  unfold run. cbn [fold_left].
  rewrite (step_dispatch _ _ _ _ Hgo).
  rewrite (step_dispatch API_KEY _
             [ setIsLoading true; setError None; setRestoredImage None ] req).
  - cbn [state pending sent]. rewrite <- !app_assoc. repeat split.
  - cbn [state]. rewrite restore_after_dispatch. exact Hgo.
Qed.

Lemma handler_does_not_guard_reentry_witness :
  let s := mkState (Some "data:image/png;base64,AAAA") (Some "image/png")
             None false None (Some "a.png") in
  List.length (pending (run (Some "key") [ RequestRestoration; RequestRestoration ]
                          (fresh s))) = 2.
Proof.
  intros s.
  destruct (handler_does_not_guard_reentry (Some "key") (fresh s) _ _ eq_refl)
    as (_ & Hpending & _).
  rewrite Hpending. reflexivity.
Defined.

(** ** More on Download *)

Lemma truthy_Some_inv (v : Js.value) :
  Js.truthy v = true -> exists s, v = Some s /\ s <> "".
Proof.
  destruct v as [s|]; simpl; [|discriminate].
  destruct (String.eqb_spec s ""); [discriminate|]. intros _. now exists s.
Qed.

(** X9.  Whenever the page offers Download, [handleDownload] does click a
    link: the button is enabled only with a restored image, the link points
    to that image, and no setter is called. *)
Theorem offered_download_clicks_a_link :
  forall s,
    offered s Download = true ->
    exists img,
      restoredImage s = Some img
      /\ handleDownload s
         = ([], Some {| href := img; download := download_name (fileName s) |}).
Proof.
  intros s Hoff. cbn [offered] in Hoff.
  apply andb_true_iff in Hoff as [_ Hoff].
  apply negb_true_iff, orb_false_iff in Hoff as [Hrest _].
  apply negb_false_iff in Hrest.
  destruct (truthy_Some_inv _ Hrest) as (img & Himg & _).
  exists img. split; [exact Himg|].
  unfold handleDownload. rewrite Hrest, Himg. reflexivity.
Qed.

Lemma offered_download_clicks_a_link_witness :
  exists img,
    restoredImage (mkState (Some "data:image/jpeg;base64,AAAA") (Some "image/jpeg")
                     (Some "data:image/png;base64,BBBB") false None (Some "a.jpg"))
    = Some img.
Proof.
  destruct (offered_download_clicks_a_link
              (mkState (Some "data:image/jpeg;base64,AAAA") (Some "image/jpeg")
                 (Some "data:image/png;base64,BBBB") false None (Some "a.jpg"))
              eq_refl) as (img & Himg & _).
  exists img. exact Himg.
Defined.

Lemma join_snoc (sep : ascii) (init : list string) (x : string) :
  init <> [] ->
  Js.join sep (init ++ [x]) = Js.join sep init ++ String sep x.
Proof.
  induction init as [|a [|b rest] IH]; intros Hne.
  - contradiction.
  - reflexivity.
  - change (Js.join sep ((a :: b :: rest) ++ [x]))
      with (a ++ String sep (Js.join sep ((b :: rest) ++ [x]))).
    rewrite IH by discriminate.
    change (Js.join sep (a :: b :: rest))
      with (a ++ String sep (Js.join sep (b :: rest))).
    rewrite string_app_assoc. reflexivity.
Qed.

(** X10.  The suggested file name, for every file name [n]: either [n] has
    no dot, and the name is [photo-restored.png]; or [n] is [base.ext] with
    no dot in [ext] (the split at the last dot), and the name is
    [base-restored.png], with [photo] for an empty [base]. *)
Theorem download_name_cuts_at_the_last_dot :
  forall n,
    (Js.free_of "." n = true
     /\ download_name (Some n) = "photo-restored.png")
    \/ exists base ext,
         n = base ++ "." ++ ext
         /\ Js.free_of "." ext = true
         /\ download_name (Some n)
            = (if base =? "" then "photo" else base) ++ "-restored.png".
Proof.
  intros n.
  destruct (exists_last (split_not_nil "." n)) as (init & last & Hsplit).
  pose proof (split_pieces_free "." n) as Hfree.
  rewrite Hsplit in Hfree. apply Forall_app in Hfree as [_ Hlast].
  inversion Hlast as [|? ? Hext _]; subst.
  pose proof (join_split "." n) as Hjoin. rewrite Hsplit in Hjoin.
  assert (Hname : download_name (Some n)
                  = Js.or_else (Some (Js.join "." init)) "photo" ++ "-restored.png").
  { unfold download_name, Js.slice_0_m1. cbn [option_map].
    rewrite Hsplit, removelast_last. reflexivity. }
  destruct init as [|a init'].
  - left. cbn in Hjoin. subst last. split; [exact Hext | exact Hname].
  - right. exists (Js.join "." (a :: init')), last.
    rewrite join_snoc in Hjoin by discriminate.
    split; [symmetry; exact Hjoin|]. split; [exact Hext | exact Hname].
Qed.

(** ** Whole sessions *)

Lemma run_offered_cons (API_KEY : Js.value) (e : Event) (rest : list Event)
    (w : World) :
  offered (state w) e = true ->
  run_offered API_KEY (e :: rest) w = run_offered API_KEY rest (step API_KEY w e).
Proof. intros H. cbn [run_offered]. rewrite H. reflexivity. Qed.

Lemma step_upload (API_KEY : Js.value) (w : World) (f : File) :
  step API_KEY w (Upload (Some f))
  = {| state := initial; reading := (reading w ++ [f])%list;
       pending := pending w; sent := sent w; clicked := clicked w |}.
Proof. reflexivity. Qed.

Lemma step_file_read (API_KEY : Js.value) (w : World) (i : nat) (f : File)
    (base64 : Js.value) (mime : string) :
  nth_error (reading w) i = Some f ->
  fileToBase64 f = Fulfilled (base64, mime) ->
  step API_KEY w (FileRead i)
  = {| state := mkState (Some (dataURL (Some mime) base64)) (Some mime)
                  (restoredImage (state w)) (isLoading (state w))
                  (error (state w)) (Some (name f));
       reading := drop_nth i (reading w);
       pending := pending w; sent := sent w; clicked := clicked w |}.
Proof. intros Hi Hread. cbn [step]. rewrite Hi, Hread. reflexivity. Qed.

(** X11.  A whole session, every step of it offered by the page: selecting
    a readable file with a media type, the read finishing, Restore with the
    API key configured, a response whose first image part has payload [P]
    and media type [M], then Download.  One request was sent, none is left
    in flight, and one link was clicked: it points to [data:M;base64,P] and
    suggests [download_name] of the selected file's name. *)
Theorem session_ends_with_one_download :
  forall API_KEY f base64 mime response pre post caption P M,
    Js.truthy API_KEY = true ->
    fileToBase64 f = Fulfilled (base64, mime) -> mime <> "" ->
    response_parts response
      = (pre ++ {| inlineData := Some {| data := Some P; mimeType := Some M |};
                   text := caption |} :: post)%list ->
    Forall no_image pre ->
    exists w,
      run_offered API_KEY
        [ Upload (Some f); FileRead 0; RequestRestoration;
          ServiceSettles 0 (Fulfilled response); Download ]
        (fresh initial) = Some w
      /\ clicked w = [ {| href := "data:" ++ M ++ ";base64," ++ P;
                          download := download_name (Some (name f)) |} ]
      /\ List.length (sent w) = 1
      /\ pending w = []
      /\ isLoading (state w) = false
      /\ error (state w) = None.
Proof.
  intros API_KEY f base64 mime response pre post caption P M
    Hkey Hread Hmime Hparts Hpre.
  rewrite run_offered_cons, step_upload by reflexivity.
  rewrite run_offered_cons by reflexivity.
  erewrite step_file_read; [|reflexivity | exact Hread].
  cbn [state reading pending sent clicked fresh app drop_nth
       restoredImage isLoading error initial].
  rewrite run_offered_cons by reflexivity.
  destruct (restore_passes API_KEY
              (mkState (Some (dataURL (Some mime) base64)) (Some mime)
                 None false None (Some (name f)))
              eq_refl (truthy_Some mime Hmime) Hkey) as [req Hgo].
  erewrite step_dispatch; [|exact Hgo].
  cbn [state reading pending sent clicked app commit fold_left apply
       originalImage originalMimeType restoredImage isLoading error fileName].
  rewrite run_offered_cons by reflexivity.
  cbn [step pending nth_error state reading sent clicked drop_nth].
  rewrite (resume_with_image response pre post _ _ _ Hparts Hpre eq_refl).
  cbn [originalImage originalMimeType restoredImage isLoading error fileName
       data mimeType].
  rewrite run_offered_cons by reflexivity.
  eexists. split; [reflexivity|]. repeat split.
Qed.

Lemma session_ends_with_one_download_witness :
  let grandma := {| name := "grandma.jpg"; type := "image/jpeg";
                    readAsDataURL := Some "data:image/jpeg;base64,/9j/4AAQ" |} in
  let answer := {| candidates := Some
        [ {| content := Some {| parts := Some
               [ {| inlineData := None; text := Some "Restored." |};
                 {| inlineData := Some {| data := Some "BBBB";
                                          mimeType := Some "image/png" |};
                    text := None |} ] |} |} ] |} in
  exists w,
    run_offered (Some "key")
      [ Upload (Some grandma); FileRead 0; RequestRestoration;
        ServiceSettles 0 (Fulfilled answer); Download ]
      (fresh initial) = Some w
    /\ clicked w = [ {| href := "data:image/png;base64,BBBB";
                        download := "grandma-restored.png" |} ].
Proof.
  intros grandma answer.
  destruct (session_ends_with_one_download (Some "key") grandma
              (Some "/9j/4AAQ") "image/jpeg" answer
              [ {| inlineData := None; text := Some "Restored." |} ] []
              None "BBBB" "image/png")
    as (w & Hrun & Hclicked & _).
  - reflexivity.
  - reflexivity.
  - discriminate.
  - reflexivity.
  - repeat constructor.
  - exists w. split; [exact Hrun | exact Hclicked].
Defined.

(** X12.  Two files selected one after the other, before either read has
    finished (the uploader is still on the page): the reads are not tied to
    the selection, so when the second file's read finishes first and the
    first file's read last, the page ends up showing the first file, its
    media type and its name. *)
Theorem last_read_to_finish_wins :
  forall API_KEY f1 f2 b1 m1 b2 m2,
    fileToBase64 f1 = Fulfilled (b1, m1) ->
    fileToBase64 f2 = Fulfilled (b2, m2) ->
    exists w,
      run_offered API_KEY
        [ Upload (Some f1); Upload (Some f2); FileRead 1; FileRead 0 ]
        (fresh initial) = Some w
      /\ state w = mkState (Some (dataURL (Some m1) b1)) (Some m1)
                     None false None (Some (name f1))
      /\ reading w = [].
Proof.
  intros API_KEY f1 f2 b1 m1 b2 m2 H1 H2.
  rewrite run_offered_cons, step_upload by reflexivity.
  rewrite run_offered_cons, step_upload by reflexivity.
  cbn [fresh reading pending sent clicked app].
  rewrite run_offered_cons by reflexivity.
  erewrite step_file_read; [|reflexivity | exact H2].
  cbn [state reading pending sent clicked drop_nth
       restoredImage isLoading error initial].
  rewrite run_offered_cons by reflexivity.
  erewrite step_file_read; [|reflexivity | exact H1].
  eexists. split; [reflexivity|]. split; reflexivity.
Qed.

Lemma last_read_to_finish_wins_witness :
  let first := {| name := "first.png"; type := "image/png";
                  readAsDataURL := Some "data:image/png;base64,AAAA" |} in
  let second := {| name := "second.jpg"; type := "image/jpeg";
                   readAsDataURL := Some "data:image/jpeg;base64,BBBB" |} in
  exists w,
    run_offered None
      [ Upload (Some first); Upload (Some second); FileRead 1; FileRead 0 ]
      (fresh initial) = Some w
    /\ fileName (state w) = Some "first.png".
Proof.
  intros first second.
  destruct (last_read_to_finish_wins None first second
              (Some "AAAA") "image/png" (Some "BBBB") "image/jpeg"
              eq_refl eq_refl) as (w & Hrun & Hstate & _).
  exists w. split; [exact Hrun|]. rewrite Hstate. reflexivity.
Defined.

(** ** Reading the file *)

(** X13.  Round trip of the upload.  When the reader delivers
    [data:<type>;base64,<payload>] for the file's own media type, with no
    comma in the type or in the payload, [fileToBase64] resolves with that
    payload and the upload stores, as [originalImage], exactly the string
    the reader delivered, from whatever state the component was in. *)
Theorem upload_stores_what_the_reader_delivered :
  forall API_KEY f payload s0,
    readAsDataURL f = Some ("data:" ++ type f ++ ";base64," ++ payload) ->
    Js.free_of "," (type f) = true ->
    Js.free_of "," payload = true ->
    fileToBase64 f = Fulfilled (Some payload, type f)
    /\ state (run API_KEY [ Upload (Some f); FileRead 0 ] (fresh s0))
       = mkState (readAsDataURL f) (Some (type f)) None false None (Some (name f)).
Proof.
  intros API_KEY f payload s0 Hresult Htype Hpayload.
  assert (Hread : fileToBase64 f = Fulfilled (Some payload, type f)).
  { unfold fileToBase64. rewrite Hresult.
    change ("data:" ++ type f ++ ";base64," ++ payload)
      with (dataURL (Some (type f)) (Some payload)).
    rewrite (payload_of_dataURL _ _ Htype Hpayload). reflexivity. }
  split; [exact Hread|].
  unfold run. cbn [fold_left]. rewrite step_upload.
  erewrite step_file_read; [|reflexivity | exact Hread].
  cbn [state]. rewrite Hresult. reflexivity.
Qed.

Lemma upload_stores_what_the_reader_delivered_witness :
  let grandma := {| name := "grandma.jpg"; type := "image/jpeg";
                    readAsDataURL := Some "data:image/jpeg;base64,/9j/4AAQ" |} in
  originalImage (state (run None [ Upload (Some grandma); FileRead 0 ] (fresh initial)))
  = Some "data:image/jpeg;base64,/9j/4AAQ".
Proof.
  intros grandma.
  destruct (upload_stores_what_the_reader_delivered None grandma "/9j/4AAQ" initial
              eq_refl eq_refl eq_refl) as [_ Hstate].
  rewrite Hstate. reflexivity.
Defined.

(** X14.  When what the reader delivers has no comma in it, [split(',')[1]]
    is [undefined]: the upload still succeeds, and stores a data URL whose
    payload reads [undefined]; with a media type and the API key
    configured, Restore then sends the text [undefined] as the image data. *)
Theorem read_result_without_comma_sends_undefined :
  forall API_KEY f result s0,
    readAsDataURL f = Some result ->
    Js.free_of "," result = true ->
    Js.truthy API_KEY = true ->
    type f <> "" -> Js.free_of "," (type f) = true ->
    let w := run API_KEY [ Upload (Some f); FileRead 0; RequestRestoration ] (fresh s0) in
    originalImage (state w) = Some ("data:" ++ type f ++ ";base64,undefined")
    /\ error (state w) = None
    /\ sent w
       = [ {| model := "gemini-2.5-flash-image-preview";
              contents := {| parts := Some
                [ {| inlineData := Some {| data := Some "undefined";
                                           mimeType := Some (type f) |};
                     text := None |};
                  {| inlineData := None; text := Some RESTORE_PROMPT |} ] |};
              config := {| responseModalities := [IMAGE; TEXT] |} |} ].
Proof.
  intros API_KEY f result s0 Hresult Hfree Hkey Htype Hcomma w. subst w.
  assert (Hread : fileToBase64 f = Fulfilled (None, type f)).
  { unfold fileToBase64. rewrite Hresult, (split_free "," result Hfree). reflexivity. }
  unfold run. cbn [fold_left]. rewrite step_upload.
  erewrite step_file_read; [|reflexivity | exact Hread].
  cbn [state reading pending sent clicked fresh app drop_nth
       restoredImage isLoading error initial].
  cbn [step state pending sent]. unfold handleRestorePhoto.
  cbn [originalImage originalMimeType].
  rewrite (truthy_Some _ Htype), Hkey, dataURL_truthy. cbn [negb orb Js.template].
  change (dataURL (Some (type f)) None)
    with (dataURL (Some (type f)) (Some "undefined")).
  rewrite (payload_of_dataURL (type f) "undefined" Hcomma eq_refl).
  repeat split.
Qed.

Lemma read_result_without_comma_sends_undefined_witness :
  let empty := {| name := "empty.png"; type := "image/png";
                  readAsDataURL := Some "data:" |} in
  originalImage (state (run (Some "key")
                          [ Upload (Some empty); FileRead 0; RequestRestoration ]
                          (fresh initial)))
  = Some "data:image/png;base64,undefined".
Proof.
  intros empty.
  refine (proj1 (read_result_without_comma_sends_undefined (Some "key") empty
                   "data:" initial eq_refl eq_refl eq_refl _ eq_refl)).
  discriminate.
Defined.
